(** * rh-utcp: configuration, provider registry and manual serialisation

    A shallow embedding of the Go packages [internal/config],
    [internal/providers] and [pkg/utcp], with the properties that the
    design document states about them.

    Go strings are byte sequences and are modelled by [string]; Go maps
    with string keys by [gmap string _]; a function returning
    [(T, error)] by a sum or by a pair with an optional error. *)

From Stdlib Require Import ZArith Ascii String List Bool Lia.
From stdpp Require Import base option list gmap strings sorting pretty.

Local Open Scope string_scope.

(* ===================================================================== *)
(** * Go errors *)
(* ===================================================================== *)

Module goerr.

(** An [error] value is either a plain message ([errors.New], or
    [fmt.Errorf] without [%w]) or a message wrapping another error
    ([fmt.Errorf] with [%w]). *)
Inductive error : Type :=
| errorString (msg : string)
| wrapError (msg : string) (err : error).

(** [err.Error()] *)
Definition Error (e : error) : string :=
  match e with
  | errorString msg => msg
  | wrapError msg _ => msg
  end.

(** [errors.Unwrap(err)] *)
Definition Unwrap (e : error) : option error :=
  match e with
  | errorString _ => None
  | wrapError _ inner => Some inner
  end.

(** [fmt.Errorf(prefix + "%s" + sep + "%w", s, err)]: the message is the
    formatted text, in which [%w] stands for [err.Error()], and the
    result unwraps to [err]. *)
Definition Errorf_s_w (prefix s sep : string) (err : error) : error :=
  wrapError (prefix ++ s ++ sep ++ Error err) err.

(** [fmt.Errorf(prefix + "%s", s)] *)
Definition Errorf_s (prefix s : string) : error :=
  errorString (prefix ++ s).

(** [strings.Contains(s, sub)] as a proposition. *)
Definition Contains (s sub : string) : Prop :=
  exists before after, s = before ++ sub ++ after.

(** [strings.HasPrefix(s, prefix)] *)
Fixpoint HasPrefix (s prefix : string) : bool :=
  match prefix, s with
  | EmptyString, _ => true
  | String a prefix', String b s' => Ascii.eqb a b && HasPrefix s' prefix'
  | String _ _, EmptyString => false
  end.

(** [strings.Contains(s, sub)] as a function. *)
Fixpoint ContainsB (s sub : string) : bool :=
  HasPrefix s sub ||
  match s with
  | EmptyString => false
  | String _ s' => ContainsB s' sub
  end.

End goerr.

Import goerr.

(* ===================================================================== *)
(** * Package config *)
(* ===================================================================== *)

Module config.

(** AuthConfig holds authentication configuration *)
Record AuthConfig : Type := mkAuthConfig {
  AuthType : string;          (* field Type *)
  Username : string;
  Password : string;
  APIKey : string;
  Token : string;
  ClientID : string;
  ClientSecret : string;
  TokenURL : string
}.

(** ProviderConfig holds configuration for a single provider *)
Record ProviderConfig : Type := mkProviderConfig {
  Name : string;
  Type_ : string;             (* field Type *)
  Enabled : bool;
  BaseURL : string;
  Auth : AuthConfig
}.

(** ServerConfig holds server-specific configuration *)
Record ServerConfig : Type := mkServerConfig {
  Port : string;
  Environment : string;
  LogLevel : string
}.

(** Config holds all configuration for the application *)
Record Config : Type := mkConfig {
  Server : ServerConfig;
  Providers : list ProviderConfig
}.

(** The zero value of [AuthConfig]. *)
Definition zeroAuth : AuthConfig :=
  mkAuthConfig "" "" "" "" "" "" "" "".

(** The test [s == empty string]. *)
Definition isEmpty (s : string) : bool := String.eqb s "".

(** [func (p *ProviderConfig) Validate() error]; [None] is the nil error. *)
Definition ProviderValidate (p : ProviderConfig) : option error :=
  if isEmpty (Name p) then
    Some (errorString "provider name is required")
  else if isEmpty (Type_ p) then
    Some (errorString "provider type is required")
  else if Enabled p && isEmpty (BaseURL p) then
    Some (errorString "base URL is required for enabled provider")
  else if Enabled p then
    let a := Auth p in
    if String.eqb (AuthType a) "basic" then
      if isEmpty (Username a) || isEmpty (Password a) then
        Some (errorString "username and password required for basic auth")
      else None
    else if String.eqb (AuthType a) "api_key" then
      if isEmpty (APIKey a) then
        Some (errorString "API key required for api_key auth")
      else None
    else if String.eqb (AuthType a) "personal_token" then
      if isEmpty (Token a) then
        Some (errorString "token required for personal_token auth")
      else None
    else if String.eqb (AuthType a) "oauth2" then
      if isEmpty (ClientID a) || isEmpty (ClientSecret a) || isEmpty (TokenURL a) then
        Some (errorString
                "client_id, client_secret, and token_url required for oauth2 auth")
      else None
    else None
  else None.

(** The loop of [Config.Validate] over [c.Providers]: it returns at the
    first provider whose own validation fails. *)
Fixpoint validateProviders (ps : list ProviderConfig) : option error :=
  match ps with
  | [] => None
  | p :: rest =>
      match ProviderValidate p with
      | Some err => Some (Errorf_s_w "provider " (Name p) ": " err)
      | None => validateProviders rest
      end
  end.

(** [func (c *Config) Validate() error] *)
Definition Validate (c : Config) : option error :=
  if isEmpty (Port (Server c)) then
    Some (errorString "server port is required")
  else validateProviders (Providers c).

(** [Config.GetProvider(name)]: a linear search, [None] when no entry
    has that name. *)
Fixpoint lookupProvider (ps : list ProviderConfig) (name : string)
  : option ProviderConfig :=
  match ps with
  | [] => None
  | p :: rest => if String.eqb (Name p) name then Some p else lookupProvider rest name
  end.

Definition GetProvider (c : Config) (name : string) : option ProviderConfig :=
  lookupProvider (Providers c) name.

(** ** Load

    [Load] reads the process environment and a viper instance.  The
    environment is a function from variable names to values
    ([os.Getenv], which yields the empty string for an unset variable).
    Of viper the function uses four things, gathered in [Viper]: the
    outcome of [ReadInConfig], [GetString] (after defaults, file and
    environment overrides), [IsSet("providers")], and the outcome of
    [UnmarshalKey("providers", &fileProviders)]. *)

Inductive ReadResult : Type :=
| ReadOk
| ConfigFileNotFoundError
| ReadError (err : error).

Record Viper : Type := mkViper {
  ReadInConfig : ReadResult;
  GetString : string -> string;
  IsSetProviders : bool;
  UnmarshalProviders : error + list ProviderConfig
}.

Definition Env : Type := string -> string.

(** [getEnvOrDefault(key, defaultValue)] *)
Definition getEnvOrDefault (env : Env) (key defaultValue : string) : string :=
  if negb (isEmpty (env key)) then env key else defaultValue.

(** The three blocks of [Load] that add a provider when its base URL is
    set in the environment, in source order. *)
Definition envJira (env : Env) : list ProviderConfig :=
  if negb (isEmpty (env "JIRA_BASE_URL")) then
    [ mkProviderConfig "jira" "jira" true (env "JIRA_BASE_URL")
        (mkAuthConfig "basic" (env "JIRA_USERNAME") (env "JIRA_PASSWORD")
           "" "" "" "" "") ]
  else [].

Definition envWiki (env : Env) : list ProviderConfig :=
  if negb (isEmpty (env "WIKI_BASE_URL")) then
    [ mkProviderConfig "wiki" "confluence" true (env "WIKI_BASE_URL")
        (mkAuthConfig "api_key" "" "" (env "WIKI_API_KEY") "" "" "" "") ]
  else [].

Definition envGitlab (env : Env) : list ProviderConfig :=
  if negb (isEmpty (env "GITLAB_BASE_URL")) then
    [ mkProviderConfig "gitlab" "gitlab" true (env "GITLAB_BASE_URL")
        (mkAuthConfig "personal_token" "" "" "" (env "GITLAB_TOKEN") "" "" "") ]
  else [].

Definition envProviders (env : Env) : list ProviderConfig :=
  (([] ++ envJira env) ++ envWiki env) ++ envGitlab env.

(** The inner loop of the merge: is there an entry of [ps] named [name]? *)
Fixpoint nameExists (ps : list ProviderConfig) (name : string) : bool :=
  match ps with
  | [] => false
  | ep :: rest => if String.eqb (Name ep) name then true else nameExists rest name
  end.

(** The outer loop of the merge: [acc] is [cfg.Providers], which grows
    while the file entries are visited in order. *)
Fixpoint mergeFileProviders (acc fileProviders : list ProviderConfig)
  : list ProviderConfig :=
  match fileProviders with
  | [] => acc
  | fp :: rest =>
      if nameExists acc (Name fp) then mergeFileProviders acc rest
      else mergeFileProviders (acc ++ [fp]) rest
  end.

(** [Load()]: the configuration, or the error it returns. *)
Definition Load (env : Env) (v : Viper) : error + Config :=
  match ReadInConfig v with
  | ReadError err =>
      inl (wrapError ("error reading config file: " ++ Error err) err)
  | _ =>
      let server :=
        mkServerConfig (getEnvOrDefault env "PORT" (GetString v "server.port"))
                       (GetString v "server.environment")
                       (GetString v "server.loglevel") in
      let fromEnv := envProviders env in
      if IsSetProviders v then
        match UnmarshalProviders v with
        | inl err =>
            inl (wrapError ("error unmarshaling providers: " ++ Error err) err)
        | inr fileProviders =>
            inr (mkConfig server (mergeFileProviders fromEnv fileProviders))
        end
      else inr (mkConfig server fromEnv)
  end.

End config.

(* ===================================================================== *)
(** * UTF-8, as package encoding/json reads Go strings *)
(* ===================================================================== *)

Module utf8.

(** The replacement character U+FFFD in UTF-8: the bytes EF BF BD. *)
Definition RuneError : string :=
  String (ascii_of_N 239) (String (ascii_of_N 191) (String (ascii_of_N 189) "")).

(** For a leading byte of a multi-byte encoding: the length of the
    encoding and the range accepted for the second byte (the tables
    [first] and [acceptRanges] of package unicode/utf8).  [None] for
    bytes that cannot start a multi-byte encoding. *)
Definition lead (b : N) : option (nat * N * N) :=
  if (b <? 194)%N then None
  else if (b <? 224)%N then Some (2%nat, 128%N, 191%N)
  else if (b =? 224)%N then Some (3%nat, 160%N, 191%N)
  else if (b =? 237)%N then Some (3%nat, 128%N, 159%N)
  else if (b <? 240)%N then Some (3%nat, 128%N, 191%N)
  else if (b =? 240)%N then Some (4%nat, 144%N, 191%N)
  else if (b <? 244)%N then Some (4%nat, 128%N, 191%N)
  else if (b =? 244)%N then Some (4%nat, 128%N, 143%N)
  else None.

Definition between (lo hi : N) (c : ascii) : bool :=
  ((lo <=? N_of_ascii c) && (N_of_ascii c <=? hi))%N.

(** A continuation byte, 80..BF. *)
Definition cont (c : ascii) : bool := between 128 191 c.

(** The number of bytes of the well-formed encoding that starts the
    string [String c rest]; [0] when these bytes are not the start of
    one ([utf8.DecodeRuneInString] then yields [(RuneError, 1)]). *)
Definition runeLen (c : ascii) (rest : string) : nat :=
  if (N_of_ascii c <? 128)%N then 1
  else
    match lead (N_of_ascii c) with
    | None => 0
    | Some (sz, lo, hi) =>
        match sz, rest with
        | 2%nat, String c1 _ => if between lo hi c1 then 2 else 0
        | 3%nat, String c1 (String c2 _) =>
            if between lo hi c1 && cont c2 then 3 else 0
        | 4%nat, String c1 (String c2 (String c3 _)) =>
            if between lo hi c1 && cont c2 && cont c3 then 4 else 0
        | _, _ => 0
        end
    end.

(** [utf8.ValidString(s)] *)
Fixpoint ValidString (s : string) : bool :=
  match s with
  | EmptyString => true
  | String c rest =>
      match runeLen c rest, rest with
      | 1%nat, _ => ValidString rest
      | 2%nat, String _ r1 => ValidString r1
      | 3%nat, String _ (String _ r2) => ValidString r2
      | 4%nat, String _ (String _ (String _ r3)) => ValidString r3
      | _, _ => false
      end
  end.

(** The text that [json.Marshal] writes for a Go string, read back as a
    Go string: every byte that is not part of a well-formed encoding is
    replaced by U+FFFD, the rest is kept (the loop of [appendString],
    which advances by one byte when [DecodeRuneInString] yields
    [(RuneError, 1)], followed by the decoder's unquoting). *)
Fixpoint coerce (s : string) : string :=
  match s with
  | EmptyString => EmptyString
  | String c rest =>
      match runeLen c rest, rest with
      | 1%nat, _ => String c (coerce rest)
      | 2%nat, String c1 r1 => String c (String c1 (coerce r1))
      | 3%nat, String c1 (String c2 r2) =>
          String c (String c1 (String c2 (coerce r2)))
      | 4%nat, String c1 (String c2 (String c3 r3)) =>
          String c (String c1 (String c2 (String c3 (coerce r3))))
      | _, _ => RuneError ++ coerce rest
      end
  end.

End utf8.

(* ===================================================================== *)
(** * JSON documents and results *)
(* ===================================================================== *)

Set Warnings "-register-all".

Module json.

(** A JSON document as a tree.  Strings hold the UTF-8 text that the
    document denotes (escapes resolved); numbers are the integers, the
    only numbers that the modelled values produce; the members of an
    object are kept in document order. *)
Inductive value : Type :=
| JNull
| JBool (b : bool)
| JNumber (n : Z)
| JString (s : string)
| JArray (elems : list value)
| JObject (members : list (string * value)).

(** The value of the last member named [k]: when a document repeats a
    key, [Unmarshal] lets the last occurrence win. *)
Fixpoint get (k : string) (members : list (string * value)) : option value :=
  match members with
  | [] => None
  | (k', v) :: rest =>
      match get k rest with
      | Some x => Some x
      | None => if String.eqb k' k then Some v else None
      end
  end.

(** [x] occurs in the document [d], at any depth. *)
Inductive occurs (x : value) : value -> Prop :=
| occurs_here : occurs x x
| occurs_elem (l : list value) (y : value) :
    y ∈ l -> occurs x y -> occurs x (JArray l)
| occurs_member (ms : list (string * value)) (k : string) (y : value) :
    (k, y) ∈ ms -> occurs x y -> occurs x (JObject ms).

(** A computation that yields a value or a Go error. *)
Inductive res (A : Type) : Type :=
| Ok (a : A)
| Err (e : error).
Arguments Ok {A} a.
Arguments Err {A} e.

Definition bind {A B : Type} (m : res A) (f : A -> res B) : res B :=
  match m with
  | Ok a => f a
  | Err e => Err e
  end.

Definition traverse {A B : Type} (f : A -> res B) : list A -> res (list B) :=
  fix go (l : list A) : res (list B) :=
    match l with
    | [] => Ok []
    | x :: rest => bind (f x) (fun y => bind (go rest) (fun ys => Ok (y :: ys)))
    end.

(** ** The text of a document, as [json.MarshalIndent(v, "", "  ")]
    lays it out *)

Definition hexDigit (n : N) : ascii :=
  match n with
  | 0 => "0" | 1 => "1" | 2 => "2" | 3 => "3" | 4 => "4" | 5 => "5"
  | 6 => "6" | 7 => "7" | 8 => "8" | 9 => "9" | 10 => "a" | 11 => "b"
  | 12 => "c" | 13 => "d" | 14 => "e" | _ => "f"
  end%N%char.

Definition dquote : ascii := ascii_of_N 34.
Definition backslash : ascii := ascii_of_N 92.

(** A backslash followed by [s]. *)
Definition esc (s : string) : string := String backslash s.

(** The escape [u00XX] for the byte [b]. *)
Definition escapeByte (b : N) : string :=
  esc ("u00" ++ String (hexDigit (b / 16)) (String (hexDigit (b mod 16)) "")).

(** The escaped body of a string literal (with HTML escaping, which
    [Marshal] and [MarshalIndent] apply): quote and backslash get a
    backslash; line feed, carriage return and tab their letter; other
    control characters and the characters <, > and & their code; U+2028 and
    U+2029 (E2 80 A8 and E2 80 A9) their code; everything else is
    copied. *)
Fixpoint escape (s : string) : string :=
  match s with
  | EmptyString => EmptyString
  | String c rest =>
      let b := N_of_ascii c in
      if (b =? 34)%N then esc (String dquote (escape rest))
      else if (b =? 92)%N then esc (String backslash (escape rest))
      else if (b =? 10)%N then esc ("n" ++ escape rest)
      else if (b =? 13)%N then esc ("r" ++ escape rest)
      else if (b =? 9)%N then esc ("t" ++ escape rest)
      else if (b <? 32)%N || (b =? 60)%N || (b =? 62)%N || (b =? 38)%N
      then escapeByte b ++ escape rest
      else
        match b, rest with
        | 226%N, String c1 (String c2 r2) =>
            if (N_of_ascii c1 =? 128)%N && (N_of_ascii c2 =? 168)%N
            then esc ("u2028" ++ escape r2)
            else if (N_of_ascii c1 =? 128)%N && (N_of_ascii c2 =? 169)%N
            then esc ("u2029" ++ escape r2)
            else String c (escape rest)
        | _, _ => String c (escape rest)
        end
  end.

Definition quote (s : string) : string :=
  String dquote (escape s ++ String dquote "").

Fixpoint spaces (depth : nat) : string :=
  match depth with
  | O => ""
  | S d => "  " ++ spaces d
  end.

(** A line break followed by the indentation of [depth]. *)
Definition newline (depth : nat) : string :=
  String (ascii_of_N 10) (spaces depth).

Fixpoint render (depth : nat) (v : value) : string :=
  match v with
  | JNull => "null"
  | JBool true => "true"
  | JBool false => "false"
  | JNumber n => pretty n
  | JString s => quote s
  | JArray [] => "[]"
  | JArray (x :: xs) =>
      "[" ++ newline (S depth) ++ render (S depth) x
      ++ (fix go (l : list value) : string :=
            match l with
            | [] => ""
            | y :: ys => "," ++ newline (S depth) ++ render (S depth) y ++ go ys
            end) xs
      ++ newline depth ++ "]"
  | JObject [] => "{}"
  | JObject ((k, x) :: ms) =>
      "{" ++ newline (S depth) ++ quote k ++ ": " ++ render (S depth) x
      ++ (fix go (l : list (string * value)) : string :=
            match l with
            | [] => ""
            | (k', y) :: ys =>
                "," ++ newline (S depth) ++ quote k' ++ ": " ++ render (S depth) y
                ++ go ys
            end) ms
      ++ newline depth ++ "}"
  end.

Definition MarshalIndent (v : value) : string := render 0 v.

End json.

Import json.

(* ===================================================================== *)
(** * Package utcp *)
(* ===================================================================== *)

Module utcp.

(** ** Values *)

Definition minInt : Z := - 2 ^ 63.
Definition maxInt : Z := 2 ^ 63 - 1.
Definition inInt (z : Z) : bool := (minInt <=? z)%Z && (z <=? maxInt)%Z.

(** Go's [int] (64 bits): an integer together with its range. *)
Record int : Type := mkInt {
  int_val : Z;
  int_range : inInt int_val = true
}.

Definition zeroInt : int := mkInt 0 eq_refl.

(** A value of type [interface{}], by its dynamic type.  [AnyNil] is the
    nil interface; [AnyMap] a [map[string]interface{}] and [AnySlice] a
    [[]interface{}]; [AnyFloat64 z] is the float64 that holds the
    integer [z] (fractions, and the rounding and the exponent notation
    of integers from 2^53 on, are not modelled); [AnyUnsupported] stands
    for the values that [json.Marshal] rejects (channels, functions,
    NaN and the infinities). *)
Inductive any : Type :=
| AnyNil
| AnyBool (b : bool)
| AnyInt (i : int)
| AnyFloat64 (z : Z)
| AnyString (s : string)
| AnySlice (l : list any)
| AnyMap (m : gmap string any)
| AnyUnsupported.

(** Property represents a single property in a schema *)
Record Property : Type := mkProperty {
  Property_Type : string;
  Property_Description : string;
  Property_Enum : list string;
  Property_Default : any
}.

(** Schema represents input/output schema for a tool.  A nil map or
    slice in a field tagged [omitempty] serialises like an empty one and
    is not told apart from it. *)
Record Schema : Type := mkSchema {
  Schema_Type : string;
  Schema_Properties : gmap string Property;
  Schema_Required : list string;
  Schema_Description : string;
  Schema_Title : string
}.

(** Tool represents a single tool in the UTCP manual.  [ToolProvider]
    is [None] for the nil map. *)
Record Tool : Type := mkTool {
  Tool_Name : string;
  Tool_Description : string;
  Tool_Inputs : Schema;
  Tool_Outputs : Schema;
  Tool_Tags : list string;
  Tool_AverageResponseSize : int;
  Tool_ToolProvider : option (gmap string any)
}.

(** Manual represents a UTCP manual with version and tools.  [Tools] is
    [None] for the nil slice. *)
Record Manual : Type := mkManual {
  Version : string;
  Tools : option (list Tool)
}.

(** The elements of a slice, nil or not. *)
Definition elems {A : Type} (s : option (list A)) : list A :=
  match s with
  | Some l => l
  | None => []
  end.

(** The names of the tools of a manual, in order. *)
Definition toolNames (m : Manual) : list string :=
  Tool_Name <$> elems (Tools m).

(** NewManual creates a new UTCP manual *)
Definition NewManual : Manual := mkManual "0.1.0" (Some []).

(** AddTool adds a tool to the manual *)
Definition AddTool (m : Manual) (tool : Tool) : Manual :=
  mkManual (Version m) (Some (elems (Tools m) ++ [tool])%list).

(** HTTPProvider creates an HTTP provider configuration *)
Definition HTTPProvider (name url method : string) (auth : gmap string any)
  : gmap string any :=
  <["auth" := AnyMap auth]>
  (<["http_method" := AnyString method]>
  (<["url" := AnyString url]>
  (<["provider_id" := AnyString name]>
  (<["provider_type" := AnyString "http"]> ∅)))).

(** APIKeyAuth creates API key authentication configuration *)
Definition APIKeyAuth (envVar varName : string) : gmap string any :=
  <["var_name" := AnyString varName]>
  (<["api_key" := AnyString ("$" ++ envVar)]>
  (<["auth_type" := AnyString "api_key"]> ∅)).

(** BasicAuth creates basic authentication configuration *)
Definition BasicAuth (usernameEnv passwordEnv : string) : gmap string any :=
  <["password" := AnyString ("$" ++ passwordEnv)]>
  (<["username" := AnyString ("$" ++ usernameEnv)]>
  (<["auth_type" := AnyString "basic"]> ∅)).

(** OAuth2Auth creates OAuth2 authentication configuration *)
Definition OAuth2Auth (clientIDEnv clientSecretEnv tokenURLEnv : string)
  : gmap string any :=
  <["token_url" := AnyString ("$" ++ tokenURLEnv)]>
  (<["client_secret" := AnyString ("$" ++ clientSecretEnv)]>
  (<["client_id" := AnyString ("$" ++ clientIDEnv)]>
  (<["auth_type" := AnyString "oauth2"]> ∅))).

(** PersonalTokenAuth creates personal token authentication configuration *)
Definition PersonalTokenAuth (tokenEnv headerName : string) : gmap string any :=
  <["header_name" := AnyString headerName]>
  (<["token" := AnyString ("$" ++ tokenEnv)]>
  (<["auth_type" := AnyString "personal_token"]> ∅)).

(** ** Marshal: what package encoding/json writes for these types

    Struct fields are written in declaration order under the key of
    their tag; a field tagged [omitempty] is left out when it is false,
    0, a nil interface, or an empty slice, map or string; maps are
    written with their keys in increasing order; nil slices and nil maps
    are written as null; strings are coerced to valid UTF-8. *)

Definition unsupported : error :=
  errorString "json: unsupported value".

Definition marshalString (s : string) : value := JString (utf8.coerce s).

Definition marshalStrings (l : list string) : value :=
  JArray (marshalString <$> l).

(** The order in which the entries of a map are written. *)
Definition keyLe {A : Type} (e1 e2 : string * A) : Prop :=
  Is_true (String.leb e1.1 e2.1).

Global Instance keyLe_dec {A : Type} (e1 e2 : string * A) : Decision (keyLe e1 e2).
Proof. unfold keyLe. apply _. Defined.

Definition sortedEntries {A : Type} (m : gmap string A) : list (string * A) :=
  merge_sort keyLe (map_to_list m).

(** The object written for a map whose values have been marshalled. *)
Definition marshalEntries (m : gmap string (res value)) : res value :=
  bind (traverse (fun e : string * res value =>
                    bind e.2 (fun j => Ok (utf8.coerce e.1, j)))
                 (sortedEntries m))
       (fun members => Ok (JObject members)).

Fixpoint marshalAny (v : any) : res value :=
  match v with
  | AnyNil => Ok JNull
  | AnyBool b => Ok (JBool b)
  | AnyInt i => Ok (JNumber (int_val i))
  | AnyFloat64 z => Ok (JNumber z)
  | AnyString s => Ok (marshalString s)
  | AnySlice l => bind (traverse marshalAny l) (fun js => Ok (JArray js))
  | AnyMap m => marshalEntries (marshalAny <$> m)
  | AnyUnsupported => Err unsupported
  end.

(** A member that [omitempty] drops when [empty] holds. *)
Definition omitempty (empty : bool) (key : string) (v : value)
  : list (string * value) :=
  if empty then [] else [(key, v)].

Definition isNil (v : any) : bool :=
  match v with
  | AnyNil => true
  | _ => false
  end.

Definition isNilList {A : Type} (l : list A) : bool :=
  match l with
  | [] => true
  | _ => false
  end.

Definition marshalProperty (p : Property) : res value :=
  bind (marshalAny (Property_Default p)) (fun d =>
  Ok (JObject
        ([("type", marshalString (Property_Type p));
          ("description", marshalString (Property_Description p))]
         ++ omitempty (isNilList (Property_Enum p)) "enum"
              (marshalStrings (Property_Enum p))
         ++ omitempty (isNil (Property_Default p)) "default" d)%list)).

Definition marshalSchema (s : Schema) : res value :=
  bind (marshalEntries (marshalProperty <$> Schema_Properties s)) (fun props =>
  Ok (JObject
        ([("type", marshalString (Schema_Type s))]
         ++ omitempty (bool_decide (Schema_Properties s = ∅)) "properties" props
         ++ omitempty (isNilList (Schema_Required s)) "required"
              (marshalStrings (Schema_Required s))
         ++ omitempty (config.isEmpty (Schema_Description s)) "description"
              (marshalString (Schema_Description s))
         ++ omitempty (config.isEmpty (Schema_Title s)) "title"
              (marshalString (Schema_Title s)))%list)).

Definition marshalToolProvider (tp : option (gmap string any)) : res value :=
  match tp with
  | None => Ok JNull
  | Some m => marshalEntries (marshalAny <$> m)
  end.

Definition marshalTool (t : Tool) : res value :=
  bind (marshalSchema (Tool_Inputs t)) (fun inputs =>
  bind (marshalSchema (Tool_Outputs t)) (fun outputs =>
  bind (marshalToolProvider (Tool_ToolProvider t)) (fun provider =>
  Ok (JObject
        ([("name", marshalString (Tool_Name t));
          ("description", marshalString (Tool_Description t));
          ("inputs", inputs);
          ("outputs", outputs)]
         ++ omitempty (isNilList (Tool_Tags t)) "tags"
              (marshalStrings (Tool_Tags t))
         ++ omitempty (int_val (Tool_AverageResponseSize t) =? 0)%Z
              "average_response_size"
              (JNumber (int_val (Tool_AverageResponseSize t)))
         ++ [("tool_provider", provider)])%list)))).

Definition marshalTools (ts : option (list Tool)) : res value :=
  match ts with
  | None => Ok JNull
  | Some l => bind (traverse marshalTool l) (fun js => Ok (JArray js))
  end.

Definition marshalManual (m : Manual) : res value :=
  bind (marshalTools (Tools m)) (fun tools =>
  Ok (JObject [("version", marshalString (Version m)); ("tools", tools)])).

(** ToJSON converts the manual to JSON: the text and the error of
    [json.MarshalIndent(m, "", "  ")]. *)
Definition ToJSON (m : Manual) : string * option error :=
  match marshalManual m with
  | Ok doc => (MarshalIndent doc, None)
  | Err err => ("", Some err)
  end.

(** ** Unmarshal into a zero [Manual]

    What [json.Unmarshal(text, &parsed)] stores into [var parsed Manual]
    for the document that [text] denotes.  A member is matched to the
    field whose tag is its key (members whose key differs from a tag
    only by letter case, which Unmarshal also accepts and Marshal never
    writes, are not matched here); members without a field are skipped;
    null leaves a string or an int as it is and sets a slice, a map or
    an interface to nil; a document of the wrong kind for its field is
    an [UnmarshalTypeError], at which the model stops. *)

Definition typeError (what : string) : error :=
  errorString ("json: cannot unmarshal " ++ what).

(** Decode the member [k] of an object with [dec], or keep [zero]. *)
Definition field {A : Type} (k : string) (members : list (string * value))
    (dec : value -> res A) (zero : A) : res A :=
  match get k members with
  | Some j => dec j
  | None => Ok zero
  end.

Definition unmarshalString (j : value) : res string :=
  match j with
  | JString s => Ok s
  | JNull => Ok ""
  | _ => Err (typeError "into Go value of type string")
  end.

Definition unmarshalStrings (j : value) : res (list string) :=
  match j with
  | JArray l => traverse unmarshalString l
  | JNull => Ok []
  | _ => Err (typeError "into Go value of type []string")
  end.

Definition unmarshalInt (j : value) : res int :=
  match j with
  | JNumber z =>
      match decide (inInt z = true) with
      | left H => Ok (mkInt z H)
      | right _ => Err (typeError "number into Go value of type int")
      end
  | JNull => Ok zeroInt
  | _ => Err (typeError "into Go value of type int")
  end.

(** The entries of a decoded object as a map: a later entry replaces an
    earlier one with the same key. *)
Definition entriesToMap {A : Type} (l : list (string * A)) : gmap string A :=
  list_to_map (reverse l).

(** Into an [interface{}]: nil, bool, float64, string, [[]interface{}]
    or [map[string]interface{}]. *)
Fixpoint unmarshalAny (j : value) : any :=
  match j with
  | JNull => AnyNil
  | JBool b => AnyBool b
  | JNumber z => AnyFloat64 z
  | JString s => AnyString s
  | JArray l => AnySlice (unmarshalAny <$> l)
  | JObject ms => AnyMap (entriesToMap ((fun e => (e.1, unmarshalAny e.2)) <$> ms))
  end.

Definition zeroProperty : Property := mkProperty "" "" [] AnyNil.

Definition unmarshalProperty (j : value) : res Property :=
  match j with
  | JObject ms =>
      bind (field "type" ms unmarshalString "") (fun ty =>
      bind (field "description" ms unmarshalString "") (fun desc =>
      bind (field "enum" ms unmarshalStrings []) (fun enum =>
      bind (field "default" ms (fun v => Ok (unmarshalAny v)) AnyNil) (fun def =>
      Ok (mkProperty ty desc enum def)))))
  | JNull => Ok zeroProperty
  | _ => Err (typeError "into Go value of type utcp.Property")
  end.

Definition unmarshalProperties (j : value) : res (gmap string Property) :=
  match j with
  | JObject ms =>
      bind (traverse (fun e : string * value =>
                        bind (unmarshalProperty e.2) (fun p => Ok (e.1, p))) ms)
           (fun l => Ok (entriesToMap l))
  | JNull => Ok ∅
  | _ => Err (typeError "into Go value of type map[string]utcp.Property")
  end.

Definition zeroSchema : Schema := mkSchema "" ∅ [] "" "".

Definition unmarshalSchema (j : value) : res Schema :=
  match j with
  | JObject ms =>
      bind (field "type" ms unmarshalString "") (fun ty =>
      bind (field "properties" ms unmarshalProperties ∅) (fun props =>
      bind (field "required" ms unmarshalStrings []) (fun req =>
      bind (field "description" ms unmarshalString "") (fun desc =>
      bind (field "title" ms unmarshalString "") (fun title =>
      Ok (mkSchema ty props req desc title))))))
  | JNull => Ok zeroSchema
  | _ => Err (typeError "into Go value of type utcp.Schema")
  end.

Definition unmarshalToolProvider (j : value) : res (option (gmap string any)) :=
  match j with
  | JObject ms =>
      Ok (Some (entriesToMap ((fun e => (e.1, unmarshalAny e.2)) <$> ms)))
  | JNull => Ok None
  | _ => Err (typeError "into Go value of type map[string]interface {}")
  end.

Definition zeroTool : Tool :=
  mkTool "" "" zeroSchema zeroSchema [] zeroInt None.

Definition unmarshalTool (j : value) : res Tool :=
  match j with
  | JObject ms =>
      bind (field "name" ms unmarshalString "") (fun name =>
      bind (field "description" ms unmarshalString "") (fun desc =>
      bind (field "inputs" ms unmarshalSchema zeroSchema) (fun inputs =>
      bind (field "outputs" ms unmarshalSchema zeroSchema) (fun outputs =>
      bind (field "tags" ms unmarshalStrings []) (fun tags =>
      bind (field "average_response_size" ms unmarshalInt zeroInt) (fun size =>
      bind (field "tool_provider" ms unmarshalToolProvider None) (fun provider =>
      Ok (mkTool name desc inputs outputs tags size provider))))))))
  | JNull => Ok zeroTool
  | _ => Err (typeError "into Go value of type utcp.Tool")
  end.

Definition unmarshalTools (j : value) : res (option (list Tool)) :=
  match j with
  | JArray l => bind (traverse unmarshalTool l) (fun ts => Ok (Some ts))
  | JNull => Ok None
  | _ => Err (typeError "into Go value of type []utcp.Tool")
  end.

Definition zeroManual : Manual := mkManual "" None.

Definition unmarshalManual (doc : value) : res Manual :=
  match doc with
  | JObject ms =>
      bind (field "version" ms unmarshalString "") (fun version =>
      bind (field "tools" ms unmarshalTools None) (fun tools =>
      Ok (mkManual version tools)))
  | JNull => Ok zeroManual
  | _ => Err (typeError "into Go value of type utcp.Manual")
  end.

End utcp.

(* ===================================================================== *)
(** * Package providers *)
(* ===================================================================== *)

Module providers.

Import utcp.

(** Provider is the interface that all tool providers must implement.
    An implementation is given by what its four methods return; a value
    of the interface type is an implementation or nil, and is modelled
    by [option Provider], with [None] for the nil interface value. *)
Record Provider : Type := mkProvider {
  GetTools : list Tool;
  GetName : string;
  GetType : string;
  IsEnabled : bool
}.

(** BaseProvider provides common functionality for all providers *)
Record BaseProvider : Type := mkBaseProvider {
  Name : string;
  Type_ : string;
  Enabled : bool;
  BaseURL : string
}.

(** A provider that embeds a [BaseProvider] and supplies [GetTools]. *)
Definition fromBase (b : BaseProvider) (tools : list Tool) : Provider :=
  mkProvider tools (Name b) (Type_ b) (Enabled b).

(** Factory is a function that creates a new provider instance.  The
    argument is a Go map, which the factory shares with its caller: it
    is given the contents of the map and returns, next to its result,
    the contents it leaves. *)
Definition Factory : Type :=
  gmap string any -> gmap string any * (error + option Provider).

(** Registry manages provider factories and instances *)
Record Registry : Type := mkRegistry {
  factories : gmap string Factory;
  providers : gmap string (option Provider)
}.

(** NewRegistry creates a new provider registry *)
Definition NewRegistry : Registry := mkRegistry ∅ ∅.

(** RegisterFactory registers a provider factory *)
Definition RegisterFactory (r : Registry) (providerType : string) (factory : Factory)
  : Registry * option error :=
  match factories r !! providerType with
  | Some _ =>
      (r, Some (errorString
                  ("provider type " ++ providerType ++ " already registered")))
  | None =>
      (mkRegistry (<[providerType := factory]> (factories r)) (providers r), None)
  end.

(** How a call ends: it returns its error result, or it panics. *)
Inductive outcome : Type :=
| Returns (err : option error)
| Panics (msg : string).

(** What a call of [CreateProvider] leaves: the registry, the caller's
    [config] map ([None] for a nil map), and the outcome. *)
Record created : Type := mkCreated {
  registry_after : Registry;
  config_after : option (gmap string any);
  result : outcome
}.

(** CreateProvider creates a provider instance using the registered factory *)
Definition CreateProvider (r : Registry) (name providerType : string)
    (config : option (gmap string any)) : created :=
  match factories r !! providerType with
  | None =>
      mkCreated r config
        (Returns (Some (errorString ("unknown provider type: " ++ providerType))))
  | Some factory =>
      match config with
      | None => mkCreated r None (Panics "assignment to entry in nil map")
      | Some m =>
          let named := <["name" := AnyString name]> m in
          match factory named with
          | (left_, inl err) =>
              mkCreated r (Some left_)
                (Returns (Some (Errorf_s_w "failed to create provider " name ": " err)))
          | (left_, inr provider) =>
              mkCreated (mkRegistry (factories r) (<[name := provider]> (providers r)))
                (Some left_) (Returns None)
          end
      end
  end.

(** GetProvider returns a provider by name: [None] when the name is not
    a key of the map, [Some provider] with the stored interface value
    when it is. *)
Definition GetProvider (r : Registry) (name : string) : option (option Provider) :=
  providers r !! name.

(** A [for ... range] loop over a Go map visits every entry once, in an
    order that the language leaves open: [order] lists the keys of [m]
    in the order of one such visit. *)
Definition rangeOrder {A : Type} (m : gmap string A) (order : list string) : Prop :=
  NoDup order /\ forall k, k ∈ order <-> is_Some (m !! k).

(** The values that a loop over [m] sees when it visits the keys in
    [order]. *)
Definition rangeValues {A : Type} (m : gmap string A) (order : list string) : list A :=
  omap (fun k => m !! k) order.

(** What a call yields: a value, or a panic. *)
Inductive run (A : Type) : Type :=
| Ret (a : A)
| Panic (msg : string).
Arguments Ret {A} a.
Arguments Panic {A} msg.

(** The panic of a method call on a nil interface value. *)
Definition nilDereference : string :=
  "runtime error: invalid memory address or nil pointer dereference".

(** GetAllProviders returns all registered providers *)
Definition GetAllProviders (r : Registry) (order : list string)
  : list (option Provider) :=
  foldl (fun (acc : list (option Provider)) provider => (acc ++ [provider])%list)
        [] (rangeValues (providers r) order).

(** The loop of [GetEnabledProviders]: [provider.IsEnabled()] is called
    on every value visited, and panics on a nil one. *)
Fixpoint collectEnabled (acc visited : list (option Provider))
  : run (list (option Provider)) :=
  match visited with
  | [] => Ret acc
  | None :: _ => Panic nilDereference
  | Some p :: rest =>
      if IsEnabled p then collectEnabled (acc ++ [Some p])%list rest
      else collectEnabled acc rest
  end.

(** GetEnabledProviders returns only enabled providers *)
Definition GetEnabledProviders (r : Registry) (order : list string)
  : run (list (option Provider)) :=
  collectEnabled [] (rangeValues (providers r) order).

(** The loop of [GetAllTools] over the enabled providers. *)
Fixpoint collectTools (tools : list Tool) (enabled : list (option Provider))
  : run (list Tool) :=
  match enabled with
  | [] => Ret tools
  | None :: _ => Panic nilDereference
  | Some p :: rest => collectTools (tools ++ GetTools p)%list rest
  end.

(** GetAllTools returns all tools from all enabled providers *)
Definition GetAllTools (r : Registry) (order : list string) : run (list Tool) :=
  match GetEnabledProviders r order with
  | Panic msg => Panic msg
  | Ret enabled => collectTools [] enabled
  end.

(** Clear removes all providers from the registry *)
Definition Clear (r : Registry) : Registry := mkRegistry (factories r) ∅.

End providers.

(* ===================================================================== *)
(** * Vocabulary of the properties *)
(* ===================================================================== *)

Section ConfigVocabulary.

Import config.

(** The declared auth variant lacks one of its required fields. *)
Definition authIncomplete (a : AuthConfig) : Prop :=
  (AuthType a = "basic" /\ (Username a = "" \/ Password a = "")) \/
  (AuthType a = "api_key" /\ APIKey a = "") \/
  (AuthType a = "personal_token" /\ Token a = "") \/
  (AuthType a = "oauth2" /\
     (ClientID a = "" \/ ClientSecret a = "" \/ TokenURL a = "")).

(** The conditions under which a provider entry is at fault: the auth
    fields count for enabled providers only. *)
Definition offending (p : ProviderConfig) : Prop :=
  Name p = "" \/ Type_ p = "" \/
  (Enabled p = true /\ BaseURL p = "") \/
  (Enabled p = true /\ authIncomplete (Auth p)).

(** The same conditions with the auth fields counting for every
    provider, enabled or not. *)
Definition offendingWhateverEnabled (p : ProviderConfig) : Prop :=
  Name p = "" \/ Type_ p = "" \/
  (Enabled p = true /\ BaseURL p = "") \/
  authIncomplete (Auth p).

(** The scenario of the design document. *)
Definition jiraEntry (username : string) : ProviderConfig :=
  mkProviderConfig "jira" "jira" true "https://jira.x.com"
    (mkAuthConfig "basic" username "p" "" "" "" "" "").

Definition serverOn8080 : ServerConfig := mkServerConfig "8080" "development" "info".

(** A disabled entry that declares basic auth and gives no credentials. *)
Definition disabledEntry : ProviderConfig :=
  mkProviderConfig "jira" "jira" false ""
    (mkAuthConfig "basic" "" "" "" "" "" "" "").

(** An entry whose auth kind is not one that [Validate] knows. *)
Definition kerberosEntry : ProviderConfig :=
  mkProviderConfig "wiki" "confluence" true "https://wiki.x.com"
    (mkAuthConfig "kerberos" "" "" "" "" "" "" "").

(** An environment that sets the Jira variables only. *)
Definition jiraEnv : Env :=
  fun key =>
    if String.eqb key "JIRA_BASE_URL" then "https://jira.x.com"
    else if String.eqb key "JIRA_USERNAME" then "u"
    else if String.eqb key "JIRA_PASSWORD" then "p"
    else "".

(** Two entries of a config file: one named like the Jira entry of the
    environment, one with a name of its own. *)
Definition fileJira : ProviderConfig :=
  mkProviderConfig "jira" "jira" false "https://other.x.com"
    (mkAuthConfig "api_key" "" "" "k" "" "" "" "").

Definition fileDocs : ProviderConfig :=
  mkProviderConfig "docs" "wiki" true "https://docs.x.com"
    (mkAuthConfig "api_key" "" "" "k" "" "" "" "").

Definition fileViper : Viper :=
  mkViper ReadOk (fun _ => "8080") true (inr [fileJira; fileDocs]).

End ConfigVocabulary.

(* ===================================================================== *)
(** * Vocabulary of the registry properties *)
(* ===================================================================== *)

Section RegistryVocabulary.

Import utcp providers.

(** The mock factory of the package's tests: the provider takes its
    name and its enabled flag from the config. *)
Definition mockFactory : Factory :=
  fun config =>
    (config,
     inr (Some
            (mkProvider []
               (match config !! "name" with Some (AnyString s) => s | _ => "" end)
               "mock"
               (match config !! "enabled" with Some (AnyBool b) => b | _ => false end)))).

(** A factory that fails, as the Jira factory does without a base URL. *)
Definition failingFactory : Factory :=
  fun config => (config, inl (errorString "base_url is required")).

(** The second factory of [TestRegisterFactory]: it returns a nil
    provider and a nil error. *)
Definition nilFactory : Factory :=
  fun config => (config, inr None).

(** A factory that reads its config and leaves it as it found it. *)
Definition readsOnly (f : Factory) : Prop :=
  forall config, (f config).1 = config.

(** The calls that change a registry. *)
Inductive call : Type :=
| CallRegisterFactory (providerType : string) (factory : Factory)
| CallCreateProvider (name providerType : string) (config : option (gmap string any))
| CallClear.

Definition step (r : Registry) (c : call) : Registry :=
  match c with
  | CallRegisterFactory providerType factory =>
      (RegisterFactory r providerType factory).1
  | CallCreateProvider name providerType config =>
      registry_after (CreateProvider r name providerType config)
  | CallClear => Clear r
  end.

Definition alreadyRegistered (providerType : string) : error :=
  errorString ("provider type " ++ providerType ++ " already registered").

Definition unknownType (providerType : string) : error :=
  errorString ("unknown provider type: " ++ providerType).

(** A registry that holds one mock factory and the provider "p". *)
Definition registryWithP : Registry :=
  registry_after
    (CreateProvider (RegisterFactory NewRegistry "mock" mockFactory).1
       "p" "mock" (Some (<["enabled" := AnyBool true]> ∅))).



(** A registry in which [CreateProvider] has stored the nil provider
    that [nilFactory] returned. *)
Definition ghostRegistry : Registry :=
  registry_after
    (CreateProvider (RegisterFactory NewRegistry "nil" nilFactory).1
       "ghost" "nil" (Some ∅)).


Definition enabled (p : Provider) : Prop := IsEnabled p = true.

Global Instance enabled_dec (p : Provider) : Decision (enabled p).
Proof. unfold enabled. apply _. Defined.


End RegistryVocabulary.

(* ===================================================================== *)
(** * Vocabulary of the serialisation properties *)
(* ===================================================================== *)

Section UtcpVocabulary.

Import utcp.

(** The document of a default that is present and falsy: false, 0 or
    the empty string. *)
Definition falsyDocument (v : any) : option value :=
  match v with
  | AnyBool false => Some (JBool false)
  | AnyInt i => if (int_val i =? 0)%Z then Some (JNumber 0) else None
  | AnyFloat64 z => if (z =? 0)%Z then Some (JNumber 0) else None
  | AnyString EmptyString => Some (JString "")
  | _ => None
  end.

(** The property of the scenario: type boolean, default false. *)
Definition flagProperty : Property := mkProperty "boolean" "" [] (AnyBool false).

Definition flagSchema : Schema :=
  mkSchema "object" (<["flag" := flagProperty]> ∅) [] "" "".

Definition flagTool : Tool :=
  mkTool "toggle" "Toggle a flag" flagSchema (mkSchema "object" ∅ [] "" "")
    [] zeroInt (Some (HTTPProvider "toggle" "https://x.com/${id}" "POST"
                        (BasicAuth "U" "P"))).

Definition flagManual : Manual := AddTool NewManual flagTool.

(** A manual whose version is the single byte FF, which is not UTF-8. *)
Definition latin1Manual : Manual :=
  mkManual (String (ascii_of_N 255) "") (Some []).

(** A manual that holds a value that [json.Marshal] rejects. *)
Definition channelManual : Manual :=
  AddTool NewManual
    (mkTool "watch" "" (mkSchema "object" ∅ [] "" "") (mkSchema "object" ∅ [] "" "")
       [] zeroInt (Some (<["events" := AnyUnsupported]> ∅))).

End UtcpVocabulary.

(* VOCABULARY-END *)

(* ===================================================================== *)
(** * Properties of package config *)
(* ===================================================================== *)

Section ConfigProperties.

Import config.

Lemma isEmpty_true (s : string) : isEmpty s = true <-> s = "".
Proof. unfold isEmpty. apply String.eqb_eq. Qed.

Lemma isEmpty_false (s : string) : isEmpty s = false <-> s <> "".
Proof. unfold isEmpty. apply String.eqb_neq. Qed.

Ltac string_cases :=
  repeat match goal with
    | |- context [isEmpty ?s] =>
        let E := fresh "E" in
        destruct (isEmpty s) eqn:E;
        [apply isEmpty_true in E | apply isEmpty_false in E]
    | |- context [String.eqb ?s ?t] =>
        let E := fresh "E" in
        destruct (String.eqb s t) eqn:E;
        [apply String.eqb_eq in E | apply String.eqb_neq in E]
    | |- context [Enabled ?p] =>
        let E := fresh "E" in destruct (Enabled p) eqn:E
    end; simpl.

Lemma ProviderValidate_None (p : ProviderConfig) :
  ProviderValidate p = None <-> ~ offending p.
Proof.
  unfold ProviderValidate, offending, authIncomplete.
  destruct p as [name ty en url [aty user pass key tok cid sec turl]]; simpl.
  destruct en; string_cases; (split; [intros H Hoff | intros H]);
    try discriminate; try reflexivity; try (exfalso; apply H; tauto);
    try (subst; intuition congruence).
Qed.

Lemma ProviderValidate_Some (p : ProviderConfig) :
  offending p <-> exists err, ProviderValidate p = Some err.
Proof.
  split.
  - intros Hoff. destruct (ProviderValidate p) as [err|] eqn:E; [eauto|].
    apply ProviderValidate_None in E. contradiction.
  - intros [err E].
    destruct (ProviderValidate_None p) as [_ Hn].
    unfold offending, authIncomplete in *.
    destruct p as [name ty en url [aty user pass key tok cid sec turl]]; simpl in *.
    destruct (string_dec name ""); [tauto|].
    destruct (string_dec ty ""); [tauto|].
    destruct en; [|exfalso; rewrite Hn in E; [discriminate | intuition congruence]].
    destruct (string_dec url ""); [tauto|].
    destruct (string_dec aty "basic"), (string_dec user ""), (string_dec pass "");
      try tauto;
    destruct (string_dec aty "api_key"), (string_dec key ""); try tauto;
    destruct (string_dec aty "personal_token"), (string_dec tok ""); try tauto;
    destruct (string_dec aty "oauth2"), (string_dec cid ""), (string_dec sec ""),
      (string_dec turl ""); try tauto;
    exfalso; rewrite Hn in E; try discriminate; intuition congruence.
Qed.

Lemma validateProviders_all_pass (ps : list ProviderConfig) :
  (forall p, p ∈ ps -> ~ offending p) -> validateProviders ps = None.
Proof.
  induction ps as [|p ps IH]; intros Hall; simpl; [reflexivity|].
  assert (Hp : ProviderValidate p = None).
  { apply ProviderValidate_None, Hall. left. }
  rewrite Hp. apply IH. intros q Hq. apply Hall. right. exact Hq.
Qed.

Lemma validateProviders_first (before after : list ProviderConfig)
    (p : ProviderConfig) (err : error) :
  (forall q, q ∈ before -> ~ offending q) ->
  ProviderValidate p = Some err ->
  validateProviders (before ++ p :: after)%list
  = Some (wrapError ("provider " ++ Name p ++ ": " ++ Error err) err).
Proof.
  intros Hbefore Hp.
  induction before as [|q before IH]; simpl.
  - rewrite Hp. reflexivity.
  - assert (Hq : ProviderValidate q = None).
    { apply ProviderValidate_None, Hbefore. left. }
    rewrite Hq. apply IH. intros q' Hq'. apply Hbefore. right. exact Hq'.
Qed.

Lemma Contains_middle (before sub after : string) :
  Contains (before ++ sub ++ after) sub.
Proof. exists before, after. reflexivity. Qed.

(** C5 (as amended).  [Validate] fails with "server port is required"
    when the server port is empty.  Otherwise it passes when no provider
    entry is at fault, and fails at the first entry that is: one whose
    name or type is empty, or which is enabled and has an empty base URL
    or lacks a field that its declared auth kind requires.  The error
    then wraps the entry's own error and carries the entry's name.  The
    enabled jira entry with basic auth, username "u" and password "p"
    passes; with an empty username it fails with a message that contains
    "username and password". *)
Theorem Validate_reports_first_offender (c : Config) :
  (Port (Server c) = "" ->
   Validate c = Some (errorString "server port is required")) /\
  (Port (Server c) <> "" ->
   (forall p, p ∈ Providers c -> ~ offending p) ->
   Validate c = None) /\
  (forall before p after,
     Port (Server c) <> "" ->
     Providers c = (before ++ p :: after)%list ->
     (forall q, q ∈ before -> ~ offending q) ->
     offending p ->
     exists err e,
       ProviderValidate p = Some err /\
       Validate c = Some e /\
       Error e = "provider " ++ Name p ++ ": " ++ Error err /\
       Unwrap e = Some err /\
       Contains (Error e) (Name p)) /\
  Validate (mkConfig serverOn8080 [jiraEntry "u"]) = None /\
  (exists e,
     Validate (mkConfig serverOn8080 [jiraEntry ""]) = Some e /\
     Contains (Error e) "username and password").
Proof.
  split; [|split; [|split; [|split]]].
  - intros Hport. unfold Validate.
    apply (proj2 (isEmpty_true _)) in Hport. rewrite Hport. reflexivity.
  - intros Hport Hall. unfold Validate.
    apply (proj2 (isEmpty_false _)) in Hport. rewrite Hport.
    apply validateProviders_all_pass, Hall.
  - intros before p after Hport Hps Hbefore Hoff.
    apply ProviderValidate_Some in Hoff as [err Herr].
    exists err, (wrapError ("provider " ++ Name p ++ ": " ++ Error err) err).
    split; [exact Herr | split; [| split; [reflexivity | split; [reflexivity|]]]].
    + unfold Validate. apply (proj2 (isEmpty_false _)) in Hport. rewrite Hport, Hps.
      apply validateProviders_first; assumption.
    + simpl. apply (Contains_middle "provider " (Name p) (": " ++ Error err)).
  - reflexivity.
  - eexists. split; [reflexivity|].
    exists "provider jira: ", " required for basic auth". reflexivity.
Qed.

Lemma Validate_reports_first_offender_witness :
  exists e,
    Validate (mkConfig serverOn8080 [jiraEntry "u"; kerberosEntry; jiraEntry ""; disabledEntry])
    = Some e /\
    Error e = "provider jira: username and password required for basic auth".
Proof.
  destruct (Validate_reports_first_offender
              (mkConfig serverOn8080
                 [jiraEntry "u"; kerberosEntry; jiraEntry ""; disabledEntry]))
    as (_ & _ & Hfirst & _).
  destruct (Hfirst [jiraEntry "u"; kerberosEntry] (jiraEntry "") [disabledEntry])
    as (err & e & Herr & He & Hmsg & _).
  - discriminate.
  - reflexivity.
  - intros q Hq. apply ProviderValidate_None.
    apply list_elem_of_In in Hq.
    destruct Hq as [<- | [<- | []]]; reflexivity.
  - apply ProviderValidate_Some. eexists. reflexivity.
  - exists e. split; [exact He|].
    rewrite Hmsg. vm_compute in Herr. injection Herr as <-. reflexivity.
Defined.

(** C5 as the claim states it is false: a disabled entry that declares
    basic auth without credentials lacks the fields of its auth kind,
    and the configuration that holds it still passes [Validate]. *)
Lemma Validate_passes_disabled_without_credentials :
  ~ (forall c p, p ∈ Providers c -> offendingWhateverEnabled p -> Validate c <> None).
Proof.
  intros H.
  apply (H (mkConfig serverOn8080 [disabledEntry]) disabledEntry).
  - left.
  - right; right; right; left. split; [reflexivity | left; reflexivity].
  - reflexivity.
Qed.

(** C10.  An entry with a name and a type and, if it is enabled, a base
    URL, whose auth kind is none of "basic", "api_key", "personal_token"
    and "oauth2", passes [Validate] whatever its auth fields hold. *)
Theorem Validate_unknown_auth_kind_passes (p : ProviderConfig) :
  Name p <> "" ->
  Type_ p <> "" ->
  (Enabled p = true -> BaseURL p <> "") ->
  AuthType (Auth p) <> "basic" ->
  AuthType (Auth p) <> "api_key" ->
  AuthType (Auth p) <> "personal_token" ->
  AuthType (Auth p) <> "oauth2" ->
  ProviderValidate p = None.
Proof.
  intros Hname Htype Hurl Hb Hk Ht Ho.
  unfold ProviderValidate.
  apply (proj2 (isEmpty_false _)) in Hname.
  apply (proj2 (isEmpty_false _)) in Htype. rewrite Hname, Htype.
  apply (proj2 (String.eqb_neq _ _)) in Hb.
  apply (proj2 (String.eqb_neq _ _)) in Hk.
  apply (proj2 (String.eqb_neq _ _)) in Ht.
  apply (proj2 (String.eqb_neq _ _)) in Ho.
  destruct (Enabled p) eqn:Hen; simpl.
  - specialize (Hurl eq_refl). apply (proj2 (isEmpty_false _)) in Hurl.
    rewrite Hurl, Hb, Hk, Ht, Ho. reflexivity.
  - reflexivity.
Qed.

Lemma Validate_unknown_auth_kind_passes_witness :
  ProviderValidate kerberosEntry = None.
Proof.
  apply (Validate_unknown_auth_kind_passes kerberosEntry);
    simpl; discriminate.
Defined.

(** ** Load *)

Lemma nameExists_lookup (ps : list ProviderConfig) (name : string) :
  nameExists ps name = true <-> is_Some (lookupProvider ps name).
Proof.
  induction ps as [|p ps IH]; simpl.
  - split; [discriminate | intros [x Hx]; discriminate].
  - destruct (String.eqb (Name p) name); [|exact IH].
    split; eauto.
Qed.

Lemma nameExists_false (ps : list ProviderConfig) (name : string) :
  nameExists ps name = false <-> forall ep, ep ∈ ps -> Name ep <> name.
Proof.
  induction ps as [|p ps IH]; simpl.
  - split; [|reflexivity]. intros _ ep Hep. inversion Hep.
  - destruct (String.eqb (Name p) name) eqn:E.
    + apply String.eqb_eq in E. split; [discriminate|].
      intros H. exfalso. apply (H p); [left | exact E].
    + apply String.eqb_neq in E. rewrite IH. split.
      * intros H ep Hep. inversion Hep; subst; auto.
      * intros H ep Hep. apply H. right. exact Hep.
Qed.

Lemma lookupProvider_app (ps qs : list ProviderConfig) (name : string) :
  lookupProvider (ps ++ qs)%list name
  = match lookupProvider ps name with
    | Some p => Some p
    | None => lookupProvider qs name
    end.
Proof.
  induction ps as [|p ps IH]; simpl; [reflexivity|].
  destruct (String.eqb (Name p) name); [reflexivity | exact IH].
Qed.

(** The merge keeps [acc] as it is and appends entries of the file, in
    file order, none of which has the name of an entry of [acc]. *)
Lemma mergeFileProviders_appends (fps acc : list ProviderConfig) :
  exists kept,
    mergeFileProviders acc fps = (acc ++ kept)%list /\
    kept `sublist_of` fps /\
    forall fp, fp ∈ kept -> nameExists acc (Name fp) = false.
Proof.
  revert acc. induction fps as [|fp fps IH]; intros acc; simpl.
  - exists []. rewrite app_nil_r. repeat split; [constructor|].
    intros fp Hfp. inversion Hfp.
  - destruct (nameExists acc (Name fp)) eqn:E.
    + destruct (IH acc) as (kept & Hm & Hsub & Hnames).
      exists kept. repeat split; [exact Hm | | exact Hnames].
      apply sublist_cons, Hsub.
    + destruct (IH (acc ++ [fp])%list) as (kept & Hm & Hsub & Hnames).
      exists (fp :: kept). repeat split.
      * rewrite Hm, <- app_assoc. reflexivity.
      * apply sublist_skip, Hsub.
      * intros x Hx. inversion Hx; subst; [exact E|].
        match goal with H : x ∈ kept |- _ => apply Hnames in H; rename H into Hx' end.
        apply nameExists_false. intros ep Hep.
        apply (proj1 (nameExists_false _ _) Hx'), elem_of_app. left. exact Hep.
Qed.

(** Looking a name up after the merge: the entry of [acc], or else the
    first entry of the file with that name. *)
Lemma mergeFileProviders_lookup (fps acc : list ProviderConfig) (name : string) :
  lookupProvider (mergeFileProviders acc fps) name
  = match lookupProvider acc name with
    | Some p => Some p
    | None => lookupProvider fps name
    end.
Proof.
  revert acc. induction fps as [|fp fps IH]; intros acc; simpl.
  - destruct (lookupProvider acc name); reflexivity.
  - destruct (nameExists acc (Name fp)) eqn:E.
    + rewrite IH. destruct (lookupProvider acc name) eqn:L; [reflexivity|].
      destruct (String.eqb (Name fp) name) eqn:N; [|reflexivity].
      apply String.eqb_eq in N. subst name.
      apply nameExists_lookup in E. rewrite L in E.
      destruct E as [x Hx]. discriminate.
    + rewrite IH, lookupProvider_app. simpl.
      destruct (lookupProvider acc name); [reflexivity|].
      destruct (String.eqb (Name fp) name); reflexivity.
Qed.

(** C6.  When the config file is read and holds a list of providers, the
    providers that [Load] returns are the entries built from the
    environment, unchanged and first, followed by entries of the file in
    file order.  An entry of the file is appended only when no entry
    from the environment has its name; every returned entry is an entry
    of the environment or an entry of the file as it stands, never a mix
    of two; and a lookup by name yields the entry of the environment if
    there is one, and otherwise the first entry of the file with that
    name. *)
Theorem Load_environment_wins_by_name
    (env : Env) (v : Viper) (fileProviders : list ProviderConfig) :
  (forall err, ReadInConfig v <> ReadError err) ->
  IsSetProviders v = true ->
  UnmarshalProviders v = inr fileProviders ->
  exists cfg kept,
    Load env v = inr cfg /\
    Providers cfg = (envProviders env ++ kept)%list /\
    kept `sublist_of` fileProviders /\
    (forall fp, fp ∈ kept ->
       forall ep, ep ∈ envProviders env -> Name ep <> Name fp) /\
    (forall p, p ∈ Providers cfg -> p ∈ envProviders env \/ p ∈ fileProviders) /\
    (forall name,
       GetProvider cfg name
       = match lookupProvider (envProviders env) name with
         | Some ep => Some ep
         | None => lookupProvider fileProviders name
         end).
Proof.
  intros Hread Hset Hfile.
  destruct (mergeFileProviders_appends fileProviders (envProviders env))
    as (kept & Hm & Hsub & Hnames).
  exists (mkConfig
            (mkServerConfig (getEnvOrDefault env "PORT" (GetString v "server.port"))
               (GetString v "server.environment") (GetString v "server.loglevel"))
            (mergeFileProviders (envProviders env) fileProviders)), kept.
  split; [|split; [|split; [|split; [|split]]]].
  - unfold Load. rewrite Hset, Hfile.
    destruct (ReadInConfig v) as [| |err] eqn:R; try reflexivity.
    exfalso. exact (Hread err eq_refl).
  - exact Hm.
  - exact Hsub.
  - intros fp Hfp. apply nameExists_false, Hnames, Hfp.
  - simpl. rewrite Hm. intros p Hp. apply elem_of_app in Hp as [Hp | Hp].
    + left. exact Hp.
    + right. eapply elem_of_sublist; eassumption.
  - intros name. unfold GetProvider. simpl. apply mergeFileProviders_lookup.
Qed.

Lemma Load_environment_wins_by_name_witness :
  exists cfg,
    Load jiraEnv fileViper = inr cfg /\
    Providers cfg = (envProviders jiraEnv ++ [fileDocs])%list /\
    GetProvider cfg "jira" = Some (jiraEntry "u").
Proof.
  destruct (Load_environment_wins_by_name jiraEnv fileViper [fileJira; fileDocs])
    as (cfg & kept & Hload & _ & _ & _ & _ & Hlookup).
  - intros err. discriminate.
  - reflexivity.
  - reflexivity.
  - exists cfg. split; [exact Hload|].
    vm_compute in Hload. injection Hload as <-.
    split; [reflexivity | apply (Hlookup "jira")].
Defined.

End ConfigProperties.

(* ===================================================================== *)
(** * Properties of the provider registry *)
(* ===================================================================== *)

Section RegistryProperties.

Import utcp providers.

Implicit Types (r : Registry) (order : list string) (p : Provider).

(** ** The loops *)



(** The loop of [GetEnabledProviders] panics when it visits a nil
    provider. *)
Lemma collectEnabled_nil (visited acc : list (option Provider)) :
  None ∈ visited -> collectEnabled acc visited = Panic nilDereference.
Proof.
  revert acc. induction visited as [|v visited IH]; intros acc Hnil; [inversion Hnil|].
  destruct v as [p|]; simpl; [|reflexivity].
  assert (Hrest : None ∈ visited).
  { apply elem_of_cons in Hnil as [Hnil | Hnil]; [discriminate | exact Hnil]. }
  destruct (IsEnabled p); apply IH, Hrest.
Qed.



(** ** What a loop over a map visits *)









(** C1 as the claim states it is false: in the registry in which
    [CreateProvider] has stored the nil provider of a factory that
    returned (nil, nil), [GetAllTools] does not return; it panics at the
    call of [IsEnabled]. *)
Lemma GetAllTools_panics_on_nil_provider :
  ~ (forall r order,
       rangeOrder (providers r) order ->
       exists tools, GetAllTools r order = Ret tools).
Proof.
  intros H.
  destruct (H ghostRegistry ["ghost"]) as [tools Htools].
  - assert (Hp : providers ghostRegistry = <["ghost" := None]> ∅) by reflexivity.
    split.
    + apply NoDup_singleton.
    + intros k. rewrite Hp. split.
      * intros Hk. apply list_elem_of_singleton in Hk. subst k.
        rewrite lookup_insert_eq. eexists. reflexivity.
      * intros [x Hx]. destruct (decide (k = "ghost")) as [->|Hne]; [set_solver|].
        rewrite lookup_insert_ne, lookup_empty in Hx by congruence. discriminate.
  - vm_compute in Htools. discriminate.
Qed.

(** ** Registering factories and creating providers *)

Lemma step_keeps_factory r (c : call) (providerType : string) (f : Factory) :
  factories r !! providerType = Some f ->
  factories (step r c) !! providerType = Some f.
Proof.
  intros Hf. destruct c as [ty' f' | name ty' config | ]; simpl.
  - unfold RegisterFactory. destruct (factories r !! ty') eqn:E; simpl; [exact Hf|].
    rewrite lookup_insert_ne; [exact Hf | congruence].
  - unfold CreateProvider. destruct (factories r !! ty') as [g|]; simpl; [|exact Hf].
    destruct config as [m|]; simpl; [|exact Hf].
    destruct (g _) as [left_ [err | provider]]; simpl; exact Hf.
  - exact Hf.
Qed.

Lemma steps_keep_factory (calls : list call) r (providerType : string) (f : Factory) :
  factories r !! providerType = Some f ->
  factories (foldl step r calls) !! providerType = Some f.
Proof.
  revert r. induction calls as [|c calls IH]; intros r Hf; simpl; [exact Hf|].
  apply IH, step_keeps_factory, Hf.
Qed.

Lemma RegisterFactory_registers r (providerType : string) (f : Factory) :
  exists f', factories (RegisterFactory r providerType f).1 !! providerType = Some f' /\
             (factories r !! providerType = None -> f' = f) /\
             (forall f0, factories r !! providerType = Some f0 -> f' = f0).
Proof.
  unfold RegisterFactory. destruct (factories r !! providerType) as [f0|] eqn:E; simpl.
  - exists f0. rewrite E. split; [reflexivity|]. split; congruence.
  - exists f. rewrite lookup_insert_eq. split; [reflexivity|]. split; congruence.
Qed.

(** C7.  Once [RegisterFactory] has been called for a type tag, every
    later call of [RegisterFactory] with that tag, whatever calls of the
    registry come in between, returns the error "provider type ...
    already registered" and leaves the registry as it is, with the
    factory that was first registered under the tag still in place. *)
Theorem RegisterFactory_second_call_fails
    r (providerType : string) (first second : Factory) (between : list call) :
  let r1 := (RegisterFactory r providerType first).1 in
  let r2 := foldl step r1 between in
  RegisterFactory r2 providerType second = (r2, Some (alreadyRegistered providerType)) /\
  factories r2 !! providerType = factories r1 !! providerType /\
  (factories r !! providerType = None ->
   (RegisterFactory r providerType first).2 = None /\
   factories r2 !! providerType = Some first).
Proof.
  intros r1 r2.
  destruct (RegisterFactory_registers r providerType first) as (f' & Hf' & Hnew & _).
  fold r1 in Hf'.
  assert (H2 : factories r2 !! providerType = Some f')
    by (apply steps_keep_factory, Hf').
  split; [|split].
  - unfold RegisterFactory. rewrite H2. reflexivity.
  - rewrite H2, Hf'. reflexivity.
  - intros Hfree. split.
    + unfold RegisterFactory. rewrite Hfree. reflexivity.
    + rewrite H2, (Hnew Hfree). reflexivity.
Qed.

Lemma RegisterFactory_second_call_fails_witness :
  let r2 := foldl step (RegisterFactory NewRegistry "mock" mockFactory).1
              [CallCreateProvider "p" "mock" (Some ∅); CallClear] in
  (RegisterFactory r2 "mock" failingFactory).2 = Some (alreadyRegistered "mock") /\
  factories r2 !! "mock" = Some mockFactory.
Proof.
  destruct (RegisterFactory_second_call_fails NewRegistry "mock" mockFactory
              failingFactory [CallCreateProvider "p" "mock" (Some ∅); CallClear])
    as (Hfail & _ & Hkeep).
  destruct Hkeep as [_ Hkeep]; [reflexivity|].
  split; [rewrite Hfail; reflexivity | exact Hkeep].
Defined.

Lemma CreateProvider_registered
    r (name providerType : string) (config : gmap string any) (factory : Factory) :
  factories r !! providerType = Some factory ->
  CreateProvider r name providerType (Some config)
  = match factory (<["name" := AnyString name]> config) with
    | (left_, inl err) =>
        mkCreated r (Some left_)
          (Returns (Some (Errorf_s_w "failed to create provider " name ": " err)))
    | (left_, inr provider) =>
        mkCreated (mkRegistry (factories r) (<[name := provider]> (providers r)))
          (Some left_) (Returns None)
    end.
Proof.
  intros Hf. unfold CreateProvider.
  match goal with
  | |- context [match ?x with Some _ => _ | None => _ end] =>
      destruct x as [g|] eqn:E
  end.
  - pose proof (eq_trans (eq_sym E) Hf) as Hg. injection Hg as ->. reflexivity.
  - pose proof (eq_trans (eq_sym E) Hf) as Hg. discriminate.
Qed.

Lemma CreateProvider_unregistered
    r (name providerType : string) (config : option (gmap string any)) :
  factories r !! providerType = None ->
  CreateProvider r name providerType config
  = mkCreated r config (Returns (Some (unknownType providerType))).
Proof.
  intros Hf. unfold CreateProvider.
  match goal with
  | |- context [match ?x with Some _ => _ | None => _ end] =>
      destruct x as [g|] eqn:E
  end.
  - pose proof (eq_trans (eq_sym E) Hf) as Hg. discriminate.
  - reflexivity.
Qed.

(** C3.  When the factory registered for the type returns an error on
    the config that [CreateProvider] hands it, [CreateProvider] returns
    an error that unwraps to the factory's error and whose message
    contains the instance name, and the registry is left as it was.
    When the factory returns a provider, [CreateProvider] returns no
    error and the provider is stored under the name, in place of any
    provider stored there before; the other names and the factories are
    as before. *)
Theorem CreateProvider_follows_factory
    r (name providerType : string) (config : gmap string any) (factory : Factory) :
  factories r !! providerType = Some factory ->
  let c := CreateProvider r name providerType (Some config) in
  (forall left_ err,
     factory (<["name" := AnyString name]> config) = (left_, inl err) ->
     exists e,
       result c = Returns (Some e) /\
       Unwrap e = Some err /\
       Error e = "failed to create provider " ++ name ++ ": " ++ Error err /\
       Contains (Error e) name /\
       registry_after c = r) /\
  (forall left_ provider,
     factory (<["name" := AnyString name]> config) = (left_, inr provider) ->
     result c = Returns None /\
     providers (registry_after c) = <[name := provider]> (providers r) /\
     GetProvider (registry_after c) name = Some provider /\
     (forall other, other <> name ->
        GetProvider (registry_after c) other = GetProvider r other) /\
     factories (registry_after c) = factories r).
Proof.
  intros Hf c. subst c. split.
  - intros left_ err Hcall.
    rewrite (CreateProvider_registered _ _ _ _ _ Hf), Hcall. simpl.
    eexists. split; [reflexivity|]. split; [reflexivity|].
    split; [reflexivity|]. split; [|reflexivity].
    apply (Contains_middle "failed to create provider " name (": " ++ Error err)).
  - intros left_ provider Hcall.
    rewrite (CreateProvider_registered _ _ _ _ _ Hf), Hcall. simpl.
    split; [reflexivity|]. split; [reflexivity|]. unfold GetProvider; simpl.
    split; [apply lookup_insert_eq|]. split; [|reflexivity].
    intros other Hother. apply lookup_insert_ne. congruence.
Qed.

Lemma CreateProvider_follows_factory_witness :
  GetProvider
    (registry_after
       (CreateProvider (RegisterFactory registryWithP "bad" failingFactory).1
          "p" "bad" (Some ∅))) "p"
  = GetProvider registryWithP "p" /\
  result (CreateProvider registryWithP "p" "mock" (Some ∅)) = Returns None.
Proof.
  split.
  - destruct (CreateProvider_follows_factory
                (RegisterFactory registryWithP "bad" failingFactory).1
                "p" "bad" ∅ failingFactory) as [Hfail _]; [reflexivity|].
    destruct (Hfail (<["name" := AnyString "p"]> ∅) (errorString "base_url is required"))
      as (e & _ & _ & _ & _ & Hsame); [reflexivity|].
    rewrite Hsame. reflexivity.
  - destruct (CreateProvider_follows_factory registryWithP "p" "mock" ∅ mockFactory)
      as [_ Hok]; [reflexivity|].
    destruct (Hok (<["name" := AnyString "p"]> ∅) (Some (mkProvider [] "p" "mock" false)))
      as (Hres & _); [reflexivity|].
    exact Hres.
Defined.

(** C4 (as amended).  When no factory is registered for the type,
    [CreateProvider] returns the error "unknown provider type: ..." and
    leaves the registry and the caller's config as they were, whatever
    the registry holds; so [GetProvider(name)] afterwards returns what
    it returned before the call, and returns not-found when no provider
    was stored under the name before the call. *)
Theorem CreateProvider_unknown_type
    r (name providerType : string) (config : option (gmap string any)) :
  factories r !! providerType = None ->
  let c := CreateProvider r name providerType config in
  result c = Returns (Some (unknownType providerType)) /\
  registry_after c = r /\
  config_after c = config /\
  (forall other, GetProvider (registry_after c) other = GetProvider r other) /\
  (GetProvider r name = None -> GetProvider (registry_after c) name = None).
Proof.
  intros Hf c. subst c. rewrite (CreateProvider_unregistered _ _ _ _ Hf). simpl.
  split; [reflexivity|]. split; [reflexivity|]. split; [reflexivity|].
  split; [reflexivity | intros Hp; exact Hp].
Qed.

Lemma CreateProvider_unknown_type_witness :
  result (CreateProvider registryWithP "unknown" "unknown-type" (Some ∅))
  = Returns (Some (unknownType "unknown-type")) /\
  GetProvider
    (registry_after (CreateProvider registryWithP "unknown" "unknown-type" (Some ∅)))
    "unknown" = None /\
  GetProvider
    (registry_after (CreateProvider registryWithP "p" "unknown-type" (Some ∅))) "p"
  = GetProvider registryWithP "p".
Proof.
  destruct (CreateProvider_unknown_type registryWithP "unknown" "unknown-type" (Some ∅))
    as (Hres & _ & _ & _ & Hget); [reflexivity|].
  destruct (CreateProvider_unknown_type registryWithP "p" "unknown-type" (Some ∅))
    as (_ & _ & _ & Hsame & _); [reflexivity|].
  split; [exact Hres|]. split; [apply Hget; reflexivity | apply Hsame].
Defined.

(** C4 as the claim states it is false: in a registry that already holds
    a provider under the name, a call with an unregistered type fails
    and [GetProvider] still finds that provider. *)
Lemma CreateProvider_unknown_type_keeps_provider :
  ~ (forall r name providerType config,
       factories r !! providerType = None ->
       result (CreateProvider r name providerType config) <> Returns None /\
       GetProvider (registry_after (CreateProvider r name providerType config)) name
       = None).
Proof.
  intros H.
  destruct (H registryWithP "p" "unknown-type" (Some ∅)) as [_ Hget]; [reflexivity|].
  vm_compute in Hget. discriminate.
Qed.

(** C9.  When the type has a registered factory and the config is not a
    nil map, the factory is called on the caller's map with the entry
    "name" set to the instance name, and the map that the caller holds
    after the call is the map as the factory left it: [CreateProvider]
    does not take the entry out again, whether the factory fails or
    not.  With a factory that only reads its config, the caller's map
    ends as its old contents with "name" set, also when the factory
    fails and [CreateProvider] returns the wrapped error. *)
Theorem CreateProvider_writes_name_into_config
    r (name providerType : string) (config : gmap string any) (factory : Factory) :
  factories r !! providerType = Some factory ->
  let named := <["name" := AnyString name]> config in
  let c := CreateProvider r name providerType (Some config) in
  config_after c = Some (factory named).1 /\
  named !! "name" = Some (AnyString name) /\
  (forall key, key <> "name" -> named !! key = config !! key) /\
  (readsOnly factory ->
   config_after c = Some named /\
   forall err, (factory named).2 = inl err ->
     result c = Returns (Some (Errorf_s_w "failed to create provider " name ": " err)) /\
     config_after c = Some named).
Proof.
  intros Hf named c.
  assert (Hafter : config_after c = Some (factory named).1).
  { subst c. rewrite (CreateProvider_registered _ _ _ _ _ Hf). fold named.
    destruct (factory named) as [left_ [err | provider]]; reflexivity. }
  split; [exact Hafter|]. split; [apply lookup_insert_eq|].
  split; [intros key Hkey; apply lookup_insert_ne; congruence|].
  intros Hreads. rewrite Hafter, (Hreads named). split; [reflexivity|].
  intros err Herr. split; [|reflexivity].
  subst c. rewrite (CreateProvider_registered _ _ _ _ _ Hf). fold named.
  destruct (factory named) as [left_ res]. simpl in Herr. subst res. reflexivity.
Qed.

Lemma CreateProvider_writes_name_into_config_witness :
  config_after
    (CreateProvider (RegisterFactory NewRegistry "bad" failingFactory).1
       "jira" "bad" (Some (<["enabled" := AnyBool true]> ∅)))
  = Some (<["name" := AnyString "jira"]> (<["enabled" := AnyBool true]> ∅)).
Proof.
  destruct (CreateProvider_writes_name_into_config
              (RegisterFactory NewRegistry "bad" failingFactory).1
              "jira" "bad" (<["enabled" := AnyBool true]> ∅) failingFactory)
    as (_ & _ & _ & Hreads); [reflexivity|].
  destruct Hreads as [Hafter _]; [intros m; reflexivity|].
  exact Hafter.
Defined.

End RegistryProperties.

(* ===================================================================== *)
(** * Properties of strings *)
(* ===================================================================== *)

Section StringProperties.

Lemma HasPrefix_sound (s prefix : string) :
  HasPrefix s prefix = true -> exists rest, s = prefix ++ rest.
Proof.
  revert s. induction prefix as [|a prefix IH]; intros s H; simpl in *.
  - exists s. reflexivity.
  - destruct s as [|b s]; [discriminate|].
    apply andb_true_iff in H as [Hab Hs].
    apply Ascii.eqb_eq in Hab. subst b.
    destruct (IH s Hs) as [rest ->]. exists rest. reflexivity.
Qed.

Lemma ContainsB_sound (s sub : string) :
  ContainsB s sub = true -> Contains s sub.
Proof.
  induction s as [|c s IH]; intros H.
  - destruct sub; [|discriminate]. exists "", "". reflexivity.
  - cbn [ContainsB] in H. apply orb_true_iff in H as [H | H].
    + apply HasPrefix_sound in H as [rest ->]. exists "", rest. reflexivity.
    + destruct (IH H) as (before & after & ->).
      exists (String c before), after. reflexivity.
Qed.

Lemma string_app_assoc (a b c : string) : (a ++ b) ++ c = a ++ b ++ c.
Proof. induction a as [|x a IH]; [reflexivity | exact (f_equal (String x) IH)]. Qed.

Lemma Contains_refl (s : string) : Contains s s.
Proof.
  exists "", "". change (s = s ++ "").
  induction s as [|c s IH]; [reflexivity | exact (f_equal (String c) IH)].
Qed.

Lemma Contains_trans (s t u : string) :
  Contains s t -> Contains t u -> Contains s u.
Proof.
  intros (b1 & a1 & ->) (b2 & a2 & ->).
  exists (b1 ++ b2), (a2 ++ a1).
  rewrite !string_app_assoc. reflexivity.
Qed.

Lemma Contains_app_l (s t u : string) : Contains s u -> Contains (s ++ t) u.
Proof.
  intros (b & a & ->). exists b, (a ++ t). rewrite !string_app_assoc. reflexivity.
Qed.

Lemma Contains_app_r (s t u : string) : Contains t u -> Contains (s ++ t) u.
Proof.
  intros (b & a & ->). exists (s ++ b), a. rewrite !string_app_assoc. reflexivity.
Qed.

Lemma Contains_cons (c : ascii) (t u : string) : Contains t u -> Contains (String c t) u.
Proof. intros (b & a & ->). exists (String c b), a. reflexivity. Qed.

(** Valid UTF-8 is written and read back as it is. *)
Lemma coerce_valid (s : string) :
  utf8.ValidString s = true -> utf8.coerce s = s.
Proof.
  remember (String.length s) as n eqn:Hn.
  revert s Hn. induction n as [n IH] using lt_wf_ind. intros s Hn Hvalid.
  destruct s as [|c rest]; [reflexivity|].
  simpl in Hvalid |- *.
  destruct (utf8.runeLen c rest) as [|[|[|[|[|k]]]]] eqn:Hlen.
  - discriminate.
  - f_equal. apply (IH (String.length rest)); [simpl in Hn; lia | reflexivity | exact Hvalid].
  - destruct rest as [|c1 r1]; [discriminate|].
    do 2 f_equal.
    apply (IH (String.length r1)); [simpl in Hn; lia | reflexivity | exact Hvalid].
  - destruct rest as [|c1 [|c2 r2]]; try discriminate.
    do 3 f_equal.
    apply (IH (String.length r2)); [simpl in Hn; lia | reflexivity | exact Hvalid].
  - destruct rest as [|c1 [|c2 [|c3 r3]]]; try discriminate.
    do 4 f_equal.
    apply (IH (String.length r3)); [simpl in Hn; lia | reflexivity | exact Hvalid].
  - discriminate.
Qed.

End StringProperties.

(* ===================================================================== *)
(** * Properties of the manual's serialisation *)
(* ===================================================================== *)

Section UtcpProperties.

Import utcp.

(** ** Results and traversals *)

Lemma bind_Ok {A B : Type} (m : res A) (f : A -> res B) (b : B) :
  bind m f = Ok b -> exists a, m = Ok a /\ f a = Ok b.
Proof. destruct m as [a|e]; simpl; [eauto | discriminate]. Qed.

Lemma traverse_Ok_Forall2 {A B : Type} (f : A -> res B) (l : list A) (l' : list B) :
  traverse f l = Ok l' <-> Forall2 (fun x y => f x = Ok y) l l'.
Proof.
  revert l'. induction l as [|x l IH]; intros l'; simpl.
  - split; [intros [= <-]; constructor | intros H; inversion H; reflexivity].
  - split.
    + intros H. apply bind_Ok in H as (y & Hy & H).
      apply bind_Ok in H as (ys & Hys & [= <-]).
      constructor; [exact Hy | apply IH, Hys].
    + intros H. inversion H as [|? y ? ys Hy Hys]; subst.
      rewrite Hy. simpl. apply IH in Hys. rewrite Hys. reflexivity.
Qed.

Lemma Forall2_elem_l {A B : Type} (R : A -> B -> Prop) (l : list A) (l' : list B) (x : A) :
  Forall2 R l l' -> x ∈ l -> exists y, R x y /\ y ∈ l'.
Proof.
  induction 1 as [|a b l l' Hab H IH]; intros Hx; [inversion Hx|].
  inversion Hx; subst.
  - exists b. split; [exact Hab | left].
  - destruct (IH ltac:(assumption)) as (y & Hy & Hin). exists y. split; [exact Hy | right; exact Hin].
Qed.

Lemma Forall2_elem_r {A B : Type} (R : A -> B -> Prop) (l : list A) (l' : list B) (y : B) :
  Forall2 R l l' -> y ∈ l' -> exists x, R x y /\ x ∈ l.
Proof.
  induction 1 as [|a b l l' Hab H IH]; intros Hy; [inversion Hy|].
  inversion Hy; subst.
  - exists a. split; [exact Hab | left].
  - destruct (IH ltac:(assumption)) as (x & Hx & Hin). exists x. split; [exact Hx | right; exact Hin].
Qed.

(** A traversal succeeds when its function succeeds on every element. *)
Lemma traverse_succeeds {A B C : Type} (g : B -> res C) (R : A -> B -> Prop)
    (S : A -> C -> Prop) (l : list A) (l1 : list B) :
  Forall2 R l l1 ->
  (forall x y, R x y -> exists z, g y = Ok z /\ S x z) ->
  exists l2, traverse g l1 = Ok l2 /\ Forall2 S l l2.
Proof.
  intros H Hg. induction H as [|x y l l1 Hxy H IH]; simpl.
  - exists []. split; [reflexivity | constructor].
  - destruct (Hg x y Hxy) as (z & Hz & Hs). destruct IH as (l2 & Hl2 & Hall).
    exists (z :: l2). rewrite Hz, Hl2. split; [reflexivity | constructor; assumption].
Qed.

(** ** Strings and lists of strings *)

Lemma unmarshalString_marshalString (s : string) :
  unmarshalString (marshalString s) = Ok (utf8.coerce s).
Proof. reflexivity. Qed.

Lemma unmarshalStrings_marshalStrings (l : list string) :
  unmarshalStrings (marshalStrings l) = Ok (utf8.coerce <$> l).
Proof.
  unfold unmarshalStrings, marshalStrings. apply traverse_Ok_Forall2.
  induction l as [|s l IH]; simpl; constructor; [reflexivity | exact IH].
Qed.

(** ** Maps *)

Lemma sortedEntries_Permutation {A : Type} (m : gmap string A) :
  sortedEntries m ≡ₚ map_to_list m.
Proof. unfold sortedEntries. apply merge_sort_Permutation. Qed.

Lemma marshalEntries_Ok (m : gmap string (res value)) (doc : value) :
  marshalEntries m = Ok doc ->
  exists members,
    doc = JObject members /\
    Forall2 (fun (e : string * res value) (mem : string * value) =>
               e.2 = Ok mem.2 /\ mem.1 = utf8.coerce e.1)
            (sortedEntries m) members.
Proof.
  unfold marshalEntries. intros H.
  apply bind_Ok in H as (members & Ht & [= <-]).
  exists members. split; [reflexivity|].
  apply traverse_Ok_Forall2 in Ht.
  eapply Forall2_impl; [exact Ht|].
  intros [k r] [k' j]; simpl. intros Hb.
  apply bind_Ok in Hb as (j' & -> & [= <- <-]). split; reflexivity.
Qed.

(** Every entry of the map is written as a member. *)
Lemma marshalEntries_member {A : Type} (f : A -> res value) (m : gmap string A)
    (members : list (string * value)) (k : string) (x : A) :
  marshalEntries (f <$> m) = Ok (JObject members) ->
  m !! k = Some x ->
  exists j, f x = Ok j /\ (utf8.coerce k, j) ∈ members.
Proof.
  intros H Hk. apply marshalEntries_Ok in H as (members' & [= <-] & Hall).
  assert (Hin : (k, f x) ∈ sortedEntries (f <$> m)).
  { rewrite sortedEntries_Permutation. apply elem_of_map_to_list.
    rewrite lookup_fmap, Hk. reflexivity. }
  destruct (Forall2_elem_l _ _ _ _ Hall Hin) as ([k' j] & [Hj Hk'] & Hmem).
  simpl in Hj, Hk'. subst k'. exists j. split; [exact Hj | exact Hmem].
Qed.

(** Every member is the image of an entry of the map. *)
Lemma marshalEntries_members {A : Type} (f : A -> res value) (m : gmap string A)
    (members : list (string * value)) (k' : string) (j : value) :
  marshalEntries (f <$> m) = Ok (JObject members) ->
  (k', j) ∈ members ->
  exists k x, m !! k = Some x /\ f x = Ok j /\ k' = utf8.coerce k.
Proof.
  intros H Hmem. apply marshalEntries_Ok in H as (members' & [= <-] & Hall).
  destruct (Forall2_elem_r _ _ _ _ Hall Hmem) as ([k r] & [Hj Hk'] & Hin).
  simpl in Hj, Hk'. subst r.
  rewrite sortedEntries_Permutation in Hin. apply elem_of_map_to_list in Hin.
  rewrite lookup_fmap in Hin.
  destruct (m !! k) as [x|] eqn:E; simpl in Hin; [|discriminate].
  injection Hin as Hin. exists k, x. split; [exact E | split; assumption].
Qed.

Lemma marshalEntries_object (m : gmap string (res value)) (doc : value) :
  marshalEntries m = Ok doc -> exists members, doc = JObject members.
Proof. intros H. apply marshalEntries_Ok in H as (members & -> & _). eauto. Qed.

(** ** Members of the objects that Marshal writes *)

Lemma get_app (k : string) (l1 l2 : list (string * value)) :
  get k (l1 ++ l2)%list
  = match get k l2 with
    | Some x => Some x
    | None => get k l1
    end.
Proof.
  induction l1 as [|[k' v] l1 IH]; simpl.
  - destruct (get k l2); reflexivity.
  - rewrite IH. destruct (get k l2); reflexivity.
Qed.

Lemma get_elem (k : string) (members : list (string * value)) (v : value) :
  get k members = Some v -> (k, v) ∈ members.
Proof.
  induction members as [|[k' v'] members IH]; simpl; [discriminate|].
  destruct (get k members) as [x|].
  - intros [= ->]. right. apply IH. reflexivity.
  - destruct (String.eqb k' k) eqn:E; [|discriminate].
    apply String.eqb_eq in E. subst k'. intros [= ->]. left.
Qed.

Lemma marshalAny_falsy (v : any) (j : value) :
  falsyDocument v = Some j -> marshalAny v = Ok j /\ isNil v = false.
Proof.
  destruct v as [| [|] | i | z | [|c s] | l | m |]; simpl; try discriminate.
  - intros [= <-]. split; reflexivity.
  - destruct (int_val i =? 0)%Z eqn:E; [|discriminate].
    apply Z.eqb_eq in E. rewrite E. intros [= <-]. split; reflexivity.
  - destruct (z =? 0)%Z eqn:E; [|discriminate].
    apply Z.eqb_eq in E. rewrite E. intros [= <-]. split; reflexivity.
  - intros [= <-]. split; reflexivity.
Qed.

(** The object of a property whose default is not nil has the member
    "default". *)
Lemma marshalProperty_default (p : Property) (d : value) :
  marshalAny (Property_Default p) = Ok d ->
  isNil (Property_Default p) = false ->
  exists members,
    marshalProperty p = Ok (JObject members) /\ get "default" members = Some d.
Proof.
  intros Hd Hnil. unfold marshalProperty. rewrite Hd, Hnil. simpl.
  eexists. split; [reflexivity|].
  destruct (Property_Enum p); reflexivity.
Qed.

(** The object of a property whose default is nil has no member
    "default". *)
Lemma marshalProperty_no_default (p : Property) :
  Property_Default p = AnyNil ->
  exists members,
    marshalProperty p = Ok (JObject members) /\ get "default" members = None.
Proof.
  intros Hd. unfold marshalProperty. rewrite Hd. simpl.
  eexists. split; [reflexivity|].
  destruct (Property_Enum p); reflexivity.
Qed.

Lemma marshalSchema_property (s : Schema) (doc : value) (key : string) (p : Property) :
  marshalSchema s = Ok doc ->
  Schema_Properties s !! key = Some p ->
  exists pdoc, marshalProperty p = Ok pdoc /\ occurs pdoc doc.
Proof.
  unfold marshalSchema. intros H Hkey.
  apply bind_Ok in H as (props & Hprops & [= <-]).
  destruct (marshalEntries_object _ _ Hprops) as (members & ->).
  destruct (marshalEntries_member _ _ _ _ _ Hprops Hkey) as (pdoc & Hp & Hmem).
  exists pdoc. split; [exact Hp|].
  assert (Hne : bool_decide (Schema_Properties s = ∅) = false).
  { apply bool_decide_eq_false. intros Hempty. rewrite Hempty in Hkey.
    rewrite lookup_empty in Hkey. discriminate. }
  rewrite Hne. simpl.
  eapply occurs_member; [right; left|].
  eapply occurs_member; [exact Hmem | apply occurs_here].
Qed.

Lemma marshalTool_schema (t : Tool) (doc : value) :
  marshalTool t = Ok doc ->
  exists inputs outputs,
    marshalSchema (Tool_Inputs t) = Ok inputs /\
    marshalSchema (Tool_Outputs t) = Ok outputs /\
    occurs inputs doc /\ occurs outputs doc.
Proof.
  unfold marshalTool. intros H.
  apply bind_Ok in H as (inputs & Hin & H).
  apply bind_Ok in H as (outputs & Hout & H).
  apply bind_Ok in H as (provider & Hprov & [= <-]).
  exists inputs, outputs. split; [exact Hin|]. split; [exact Hout|]. split.
  - eapply occurs_member; [right; right; left | apply occurs_here].
  - eapply occurs_member; [right; right; right; left | apply occurs_here].
Qed.

Lemma marshalManual_tool (m : Manual) (doc : value) (t : Tool) :
  marshalManual m = Ok doc ->
  t ∈ elems (Tools m) ->
  exists tdoc, marshalTool t = Ok tdoc /\ occurs tdoc doc.
Proof.
  unfold marshalManual, marshalTools. intros H Ht.
  apply bind_Ok in H as (tools & Htools & [= <-]).
  destruct (Tools m) as [ts|]; simpl in Ht; [|inversion Ht].
  apply bind_Ok in Htools as (tdocs & Htr & [= <-]).
  apply traverse_Ok_Forall2 in Htr.
  destruct (Forall2_elem_l _ _ _ _ Htr Ht) as (tdoc & Htdoc & Hmem).
  exists tdoc. split; [exact Htdoc|].
  eapply occurs_member; [right; left|].
  eapply occurs_elem; [exact Hmem | apply occurs_here].
Qed.

Lemma occurs_trans (x y z : value) : occurs x y -> occurs y z -> occurs x z.
Proof.
  intros Hxy Hyz. induction Hyz as [|l w Hw Hyw IH|ms k w Hw Hyw IH].
  - exact Hxy.
  - eapply occurs_elem; [exact Hw | exact IH].
  - eapply occurs_member; [exact Hw | exact IH].
Qed.

(** ** The text of a document *)

Lemma render_array_tail (depth : nat) (l : list value) (x : value) :
  x ∈ l ->
  Contains
    ((fix go (l : list value) : string :=
        match l with
        | [] => ""
        | y :: ys => "," ++ newline (S depth) ++ render (S depth) y ++ go ys
        end) l)
    (render (S depth) x).
Proof.
  induction l as [|y l IH]; intros Hx; [inversion Hx|].
  inversion Hx; subst.
  - apply (Contains_app_r ","), Contains_app_r, Contains_app_l, Contains_refl.
  - apply (Contains_app_r ","), Contains_app_r, Contains_app_r, IH. assumption.
Qed.

Lemma render_object_tail (depth : nat) (ms : list (string * value))
    (k : string) (x : value) :
  (k, x) ∈ ms ->
  Contains
    ((fix go (l : list (string * value)) : string :=
        match l with
        | [] => ""
        | (k', y) :: ys =>
            "," ++ newline (S depth) ++ quote k' ++ ": " ++ render (S depth) y
            ++ go ys
        end) ms)
    (quote k ++ ": " ++ render (S depth) x).
Proof.
  induction ms as [|[k' y] ms IH]; intros Hx; [inversion Hx|].
  inversion Hx; subst.
  - apply (Contains_app_r ","), Contains_app_r.
    rewrite <- !string_app_assoc. apply Contains_app_l.
    rewrite !string_app_assoc. apply Contains_refl.
  - apply (Contains_app_r ","), Contains_app_r, Contains_app_r, Contains_app_r,
      Contains_app_r, IH. assumption.
Qed.

(** An element of an array is written, one level deeper, in the text of
    the array. *)
Lemma render_elem (depth : nat) (l : list value) (x : value) :
  x ∈ l -> Contains (render depth (JArray l)) (render (S depth) x).
Proof.
  intros Hx. destruct l as [|y l]; [inversion Hx|].
  cbn [render]. apply (Contains_app_r "["), Contains_app_r.
  inversion Hx; subst.
  - apply Contains_app_l, Contains_refl.
  - apply Contains_app_r, Contains_app_l, render_array_tail. assumption.
Qed.

(** A member of an object is written as its quoted key, a colon, a
    space and its value, one level deeper, in the text of the object. *)
Lemma render_member (depth : nat) (ms : list (string * value))
    (k : string) (x : value) :
  (k, x) ∈ ms ->
  Contains (render depth (JObject ms)) (quote k ++ ": " ++ render (S depth) x).
Proof.
  intros Hx. destruct ms as [|[k' y] ms]; [inversion Hx|].
  cbn [render]. apply (Contains_app_r "{"), Contains_app_r.
  inversion Hx; subst.
  - exists "". eexists. cbn [append]. rewrite !string_app_assoc. reflexivity.
  - apply Contains_app_r, Contains_app_r, Contains_app_r, Contains_app_l,
      render_object_tail. assumption.
Qed.

Lemma Contains_drop_prefix (a b u : string) : Contains (a ++ b) b.
Proof. apply Contains_app_r, Contains_refl. Qed.

(** The text of a document that occurs in another is part of the text
    of that other, at some depth. *)
Lemma occurs_render (x doc : value) (depth : nat) :
  occurs x doc -> exists depth', Contains (render depth doc) (render depth' x).
Proof.
  intros H. revert depth. induction H as [|l y Hy Hxy IH|ms k y Hy Hxy IH]; intros depth.
  - exists depth. apply Contains_refl.
  - destruct (IH (S depth)) as (d' & Hd'). exists d'.
    eapply Contains_trans; [apply render_elem; exact Hy | exact Hd'].
  - destruct (IH (S depth)) as (d' & Hd'). exists d'.
    eapply Contains_trans; [apply render_member; exact Hy|].
    apply Contains_app_r, (Contains_app_r ": "), Hd'.
Qed.

End UtcpProperties.
